(** * Kitchen display (src/app/page.tsx): order tickets, status updates, stream intake

    A shallow embedding of the logic of the [App] component: the ticket
    factory [createNewTicket], the presentation mapping [getStatusBadge], the
    two buttons of [RecipeDetail], the handlers [handleUpdateStatus] and
    [eventSource.onmessage], and the values each render derives from the
    hooks.  State that React keeps between renders is a record; every handler
    is a function on that record. *)

From Stdlib Require Import List String ZArith Bool Lia.
Import ListNotations.
Open Scope string_scope.
Open Scope Z_scope.

(** ** Values decoded from the stream *)

#[local] Set Warnings "-register-all".

(** The result of [JSON.parse] when it does not throw.  An object keeps its
    members in source order; on a duplicate key the later member wins, as in
    [JSON.parse].  The handler only ever tests a number for being zero, so
    numbers are carried as integers. *)
Inductive json : Type :=
| JNull
| JBool (b : bool)
| JNum (n : Z)
| JStr (s : string)
| JArr (items : list json)
| JObj (members : list (string * json)).

(** Exceptions the message handler can meet. *)
Inductive JsError : Type :=
| SyntaxError   (* JSON.parse on text that is not JSON *)
| TypeError.    (* property read on null *)

(** [JSON.parse(event.data)]: the decoded value, or the exception thrown. *)
Inductive ParseResult : Type :=
| Parsed (data : json)
| ParseFails.

Fixpoint assoc_last (k : string) (ms : list (string * json)) : option json :=
  match ms with
  | [] => None
  | (k', v) :: rest =>
      match assoc_last k rest with
      | Some w => Some w
      | None => if (k' =? k)%string then Some v else None
      end
  end.

(** [v.meal]: [inl TypeError] when [v] is null, otherwise [inr] of the member
    ([None] is [undefined]: primitives and arrays have no such property). *)
Definition get_meal (v : json) : JsError + option json :=
  match v with
  | JNull => inl TypeError
  | JObj ms => inr (assoc_last "meal" ms)
  | _ => inr None
  end.

(** JavaScript truthiness of a decoded value. *)
Definition truthy (v : json) : bool :=
  match v with
  | JNull => false
  | JBool b => b
  | JNum n => negb (n =? 0)
  | JStr s => negb (s =? "")%string
  | JArr _ => true
  | JObj _ => true
  end.

Definition truthy_opt (v : option json) : bool :=
  match v with
  | None => false
  | Some w => truthy w
  end.

(** ** Data structures (the typedefs at the head of the file) *)

Record OrderTicket : Type := mkTicket {
  id : string;
  orderNumber : Z;
  recipe : json;
  status : string;
  timestamp : Z
}.

(** [{ ...order, status: newStatus }] *)
Definition with_status (order : OrderTicket) (newStatus : string) : OrderTicket :=
  {| id := id order;
     orderNumber := orderNumber order;
     recipe := recipe order;
     status := newStatus;
     timestamp := timestamp order |}.

(** What the platform hands out during one call of the ticket factory. *)
Record Env : Type := mkEnv {
  randomUUID : string;   (* crypto.randomUUID() *)
  now : Z                (* Date.now() *)
}.

(** ** Utility functions *)

(** [Math.max(...xs)] for a list with head [x] and tail [rest]. *)
Definition Math_max (x : Z) (rest : list Z) : Z := fold_left Z.max rest x.

Definition nextOrderNumber (existingOrders : list OrderTicket) : Z :=
  match map orderNumber existingOrders with
  | [] => 101                            (* existingOrders.length > 0 fails *)
  | n :: rest => Math_max n rest + 1
  end.

Definition createNewTicket (existingOrders : list OrderTicket)
    (recipeData : json) (env : Env) : OrderTicket :=
  {| id := randomUUID env;
     orderNumber := nextOrderNumber existingOrders;
     recipe := recipeData;
     status := "pending";
     timestamp := now env |}.

Inductive Icon : Type := Clock | Loader | CheckCircle.

Record Badge : Type := mkBadge {
  className : string;
  icon : Icon;
  label : string
}.

Definition getStatusBadge (st : string) : Badge :=
  if (st =? "pending")%string then
    {| className := "bg-red-100 text-red-700"; icon := Clock; label := "Pending" |}
  else if (st =? "preparing")%string then
    {| className := "bg-yellow-100 text-yellow-700"; icon := Loader;
       label := "In Progress" |}
  else if (st =? "completed")%string then
    {| className := "bg-green-100 text-green-700"; icon := CheckCircle;
       label := "Completed" |}
  else
    {| className := "bg-gray-100 text-gray-500"; icon := Clock; label := "Unknown" |}.

(** ** Component state *)

Inductive ConsoleArg : Type :=
| ArgValue (v : option json)          (* a decoded value, None for undefined *)
| ArgTicket (t : OrderTicket)
| ArgOrders (os : list OrderTicket)
| ArgError (e : JsError)
| ArgConnection.                      (* the error event of the stream *)

Inductive ConsoleLevel : Type := LevelLog | LevelError.

Record ConsoleLine : Type := mkLine {
  level : ConsoleLevel;
  text : string;
  arg : ConsoleArg
}.

(** What persists between renders of [App].  The two [useState] cells are
    [orders] and [selectedOrderId].  Two hooks have the dependency list [[]]
    and so keep what the first render gave them: the effect that installs
    [onmessage] (its closure reads the [orders] of that render, kept here as
    [effect_orders]) and the memo cell of [completedOrders]. *)
Record AppState : Type := mkState {
  orders : list OrderTicket;
  selectedOrderId : option string;
  effect_orders : list OrderTicket;
  completedOrders : list OrderTicket;
  eventSource_open : bool;
  timeouts : list Z;                   (* pending [() => setSelectedOrderId(null)], by delay *)
  console : list ConsoleLine
}.

Definition status_is (st : string) (o : OrderTicket) : bool := (status o =? st)%string.

Definition id_is (sel : option string) (o : OrderTicket) : bool :=
  match sel with
  | Some i => (id o =? i)%string
  | None => false                      (* o.id === null *)
  end.

(** The first render: both [useState] cells hold their initial value, the
    memo cell of [completedOrders] is computed from them, and the effect
    closure captures them. *)
Definition mount : AppState :=
  let orders0 : list OrderTicket := [] in
  {| orders := orders0;
     selectedOrderId := None;
     effect_orders := orders0;
     completedOrders := filter (status_is "completed") orders0;
     eventSource_open := true;
     timeouts := [];
     console := [] |}.

(** Values recomputed by a render (dependency lists [[orders]] and
    [[orders, selectedOrderId]]). *)
Definition pendingOrders (s : AppState) : list OrderTicket :=
  filter (status_is "pending") (orders s).

Definition activeOrders (s : AppState) : list OrderTicket :=
  filter (status_is "preparing") (orders s).

(** [orders.find((o) => o.id === selectedOrderId) || null] *)
Definition selectedOrder (s : AppState) : option OrderTicket :=
  find (id_is (selectedOrderId s)) (orders s).

(** ** State setters and effects *)

Definition setOrders (f : list OrderTicket -> list OrderTicket) (s : AppState) : AppState :=
  {| orders := f (orders s);
     selectedOrderId := selectedOrderId s;
     effect_orders := effect_orders s;
     completedOrders := completedOrders s;
     eventSource_open := eventSource_open s;
     timeouts := timeouts s;
     console := console s |}.

Definition setSelectedOrderId (sel : option string) (s : AppState) : AppState :=
  {| orders := orders s;
     selectedOrderId := sel;
     effect_orders := effect_orders s;
     completedOrders := completedOrders s;
     eventSource_open := eventSource_open s;
     timeouts := timeouts s;
     console := console s |}.

Definition setTimeout (delay : Z) (s : AppState) : AppState :=
  {| orders := orders s;
     selectedOrderId := selectedOrderId s;
     effect_orders := effect_orders s;
     completedOrders := completedOrders s;
     eventSource_open := eventSource_open s;
     timeouts := timeouts s ++ [delay];
     console := console s |}.

Definition console_write (l : ConsoleLine) (s : AppState) : AppState :=
  {| orders := orders s;
     selectedOrderId := selectedOrderId s;
     effect_orders := effect_orders s;
     completedOrders := completedOrders s;
     eventSource_open := eventSource_open s;
     timeouts := timeouts s;
     console := console s ++ [l] |}.

(** The run loop takes the oldest pending timeout off the queue. *)
Definition take_timeout (rest : list Z) (s : AppState) : AppState :=
  {| orders := orders s;
     selectedOrderId := selectedOrderId s;
     effect_orders := effect_orders s;
     completedOrders := completedOrders s;
     eventSource_open := eventSource_open s;
     timeouts := rest;
     console := console s |}.

Definition eventSource_close (s : AppState) : AppState :=
  {| orders := orders s;
     selectedOrderId := selectedOrderId s;
     effect_orders := effect_orders s;
     completedOrders := completedOrders s;
     eventSource_open := false;
     timeouts := timeouts s;
     console := console s |}.

(** ** handleUpdateStatus *)

Definition update_status (i newStatus : string) (prevOrders : list OrderTicket)
    : list OrderTicket :=
  map (fun order => if (id order =? i)%string then with_status order newStatus else order)
      prevOrders.

Definition handleUpdateStatus (i newStatus : string) (s : AppState) : AppState :=
  let s1 := setOrders (update_status i newStatus) s in
  if (newStatus =? "completed")%string then setTimeout 500 s1 else s1.

(** ** The message handler *)

(** Handler bodies run in a state monad with exceptions: a computation takes
    the component state and returns the state it leaves together with either
    the exception thrown or its value. *)
Module Handler.

Definition M (A : Type) : Type := AppState -> AppState * (JsError + A).

Definition ret {A} (a : A) : M A := fun s => (s, inr a).

Definition bind {A B} (m : M A) (k : A -> M B) : M B :=
  fun s =>
    match m s with
    | (s1, inl e) => (s1, inl e)
    | (s1, inr a) => k a s1
    end.

Definition throw {A} (e : JsError) : M A := fun s => (s, inl e).

Definition of_result {A} (r : JsError + A) : M A := fun s => (s, r).

Definition gets {A} (f : AppState -> A) : M A := fun s => (s, inr (f s)).

Definition modify (f : AppState -> AppState) : M unit := fun s => (f s, inr tt).

(** [try { body } catch (err) { handler(err) }] *)
Definition try_catch (body : M unit) (handler : JsError -> AppState -> AppState)
    : AppState -> AppState :=
  fun s =>
    match body s with
    | (s1, inl e) => handler e s1
    | (s1, inr _) => s1
    end.

End Handler.

Notation "x <- m ;; k" := (Handler.bind m (fun x => k))
  (at level 61, m at next level, right associativity).
Notation "m ;;; k" := (Handler.bind m (fun _ => k))
  (at level 61, right associativity).

Definition JSON_parse (r : ParseResult) : Handler.M json :=
  match r with
  | Parsed v => Handler.ret v
  | ParseFails => Handler.throw SyntaxError
  end.

Definition console_log (t : string) (a : ConsoleArg) : Handler.M unit :=
  Handler.modify (console_write {| level := LevelLog; text := t; arg := a |}).

Definition console_error (t : string) (a : ConsoleArg) (s : AppState) : AppState :=
  console_write {| level := LevelError; text := t; arg := a |} s.

(** The body of the [try] block.  [seen] is the variable [orders] of the
    closure, that is, of the render whose effect installed the handler. *)
Definition onmessage_body (event_data : ParseResult) (env : Env) : Handler.M unit :=
  data <- JSON_parse event_data ;;
  meal <- Handler.of_result (get_meal data) ;;
  console_log "meal: " (ArgValue meal) ;;;
  if truthy data then
    meal' <- Handler.of_result (get_meal data) ;;
    if truthy_opt meal' then
      seen <- Handler.gets effect_orders ;;
      let newTicket := createNewTicket seen data env in
      console_log "newTicket: " (ArgTicket newTicket) ;;;
      Handler.modify (setOrders (fun prevOrders => (prevOrders ++ [newTicket])%list)) ;;;
      console_log "orders: " (ArgOrders seen) ;;;
      Handler.modify (setSelectedOrderId (Some (id newTicket)))
    else Handler.ret tt
  else Handler.ret tt.

Definition onmessage (event_data : ParseResult) (env : Env) : AppState -> AppState :=
  Handler.try_catch (onmessage_body event_data env)
    (fun err => console_error "Failed to parse SSE message:" (ArgError err)).

Definition onerror (s : AppState) : AppState :=
  eventSource_close (console_error "SSE connection error:" ArgConnection s).

(** ** The controls of RecipeDetail and TicketItem *)

(** The calls of [onUpdateStatus] behind the buttons that [RecipeDetail]
    renders for [order], left to right: the toggle, then mark-complete.  Each
    is rendered only when the status is not completed; without an order the
    placeholder is rendered and there is no button. *)
Definition toggle_button (order : OrderTicket) : list (string * string) :=
  if negb (status order =? "completed")%string then
    [(id order, if (status order =? "pending")%string then "preparing" else "pending")]
  else [].

Definition complete_button (order : OrderTicket) : list (string * string) :=
  if negb (status order =? "completed")%string then [(id order, "completed")] else [].

Definition RecipeDetail_buttons (order : option OrderTicket) : list (string * string) :=
  match order with
  | None => []
  | Some o => toggle_button o ++ complete_button o
  end.

(** Ids of the [TicketItem]s on screen: the preparing list, then the pending
    list. *)
Definition ticket_items (s : AppState) : list string :=
  map id (activeOrders s ++ pendingOrders s).

Definition press (button : list (string * string)) (s : AppState) : AppState :=
  match button with
  | (i, newStatus) :: _ => handleUpdateStatus i newStatus s
  | [] => s                              (* not rendered: nothing to press *)
  end.

(** ** Events *)

Inductive Event : Type :=
| Message (event_data : ParseResult) (env : Env)  (* the stream delivers an event *)
| StreamError                                     (* the stream reports an error *)
| ClickTicket (i : string)                        (* click on a TicketItem *)
| ClickToggle                                     (* Start Cooking / Pause *)
| ClickComplete                                   (* Mark as Complete *)
| TimeoutFires.                                   (* the oldest pending timeout runs *)

Definition step (s : AppState) (ev : Event) : AppState :=
  match ev with
  | Message event_data env =>
      if eventSource_open s then onmessage event_data env s else s
  | StreamError =>
      if eventSource_open s then onerror s else s
  | ClickTicket i =>
      if existsb (String.eqb i) (ticket_items s) then setSelectedOrderId (Some i) s else s
  | ClickToggle =>
      match selectedOrder s with
      | Some o => press (toggle_button o) s
      | None => s
      end
  | ClickComplete =>
      match selectedOrder s with
      | Some o => press (complete_button o) s
      | None => s
      end
  | TimeoutFires =>
      match timeouts s with
      | _ :: rest => setSelectedOrderId None (take_timeout rest s)
      | [] => s
      end
  end.

Definition run (s : AppState) (evs : list Event) : AppState := fold_left step evs s.

(** Sample data used by the examples below. *)
Definition panini : json :=
  JObj [("meal", JStr "Panini");
        ("steps", JArr [JStr "Toast bread"; JStr "Add filling"])].

Definition env_a : Env := {| randomUUID := "a"; now := 1000 |}.
Definition env_b : Env := {| randomUUID := "b"; now := 2000 |}.

(** One ticket, "a", pending and selected. *)
Definition one_pending : AppState := run mount [Message (Parsed panini) env_a].

(** Two tickets, "a" then "b", both pending, "b" selected. *)
Definition two_pending : AppState :=
  run mount [Message (Parsed panini) env_a; Message (Parsed panini) env_b].

(** One ticket, "a", marked complete while selected. *)
Definition one_completed : AppState :=
  run mount [Message (Parsed panini) env_a; ClickComplete].

(** A store holding ticket "a" while "zz" is selected. *)
Definition stale_selection : AppState := setSelectedOrderId (Some "zz") one_pending.

(** ** Predicates used in the statements *)

(** The decoded value is an object with a member named meal. *)
Definition has_meal_field (v : json) : bool :=
  match v with
  | JObj ms => existsb (fun kv => (fst kv =? "meal")%string) ms
  | _ => false
  end.

(** The payload fails to decode or lacks a meal field. *)
Definition malformed (event_data : ParseResult) : Prop :=
  match event_data with
  | ParseFails => True
  | Parsed v => has_meal_field v = false
  end.

(** The console line of a dropped event: the error line of the [catch]
    block when [JSON.parse] throws or the value is null (reading its meal
    throws), otherwise the log line that shows the meal as undefined. *)
Definition diagnostic_for (event_data : ParseResult) : ConsoleLine :=
  match event_data with
  | ParseFails =>
      {| level := LevelError; text := "Failed to parse SSE message:";
         arg := ArgError SyntaxError |}
  | Parsed JNull =>
      {| level := LevelError; text := "Failed to parse SSE message:";
         arg := ArgError TypeError |}
  | Parsed _ => {| level := LevelLog; text := "meal: "; arg := ArgValue None |}
  end.

(** The deselection rule in its selective reading: the selected order [o] of
    [s] is marked complete, the events [between] happen during the delay, and
    when the timeout runs the selection is cleared if it is still [o] and is
    kept otherwise. *)
Definition deselect_only_completed (s : AppState) (between : list Event) : Prop :=
  forall o, selectedOrder s = Some o -> status o <> "completed" ->
    selectedOrderId (step (run (step s ClickComplete) between) TimeoutFires) =
      if id_is (selectedOrderId (run (step s ClickComplete) between)) o
      then None
      else selectedOrderId (run (step s ClickComplete) between).

(** No text occurs twice in the list. *)
Fixpoint distinct (l : list string) : bool :=
  match l with
  | [] => true
  | x :: rest => negb (existsb (String.eqb x) rest) && distinct rest
  end.

(** Every id that [crypto.randomUUID] hands out during the events [evs] is
    new: not among [used] and not handed out before. *)
Fixpoint fresh_uuids (used : list string) (evs : list Event) : bool :=
  match evs with
  | [] => true
  | Message _ env :: rest =>
      negb (existsb (String.eqb (randomUUID env)) used) &&
      fresh_uuids (randomUUID env :: used) rest
  | _ :: rest => fresh_uuids used rest
  end.

(** The three ways a step can leave the store: as it was, with one ticket
    appended by the stream, or with the status of the selected, not yet
    completed, order rewritten. *)
Inductive store_change (s : AppState) (ev : Event) (after : list OrderTicket) : Prop :=
| store_same : after = orders s -> store_change s ev after
| store_append data env :
    ev = Message (Parsed data) env ->
    after = (orders s ++ [createNewTicket (effect_orders s) data env])%list ->
    store_change s ev after
| store_update o newStatus :
    selectedOrder s = Some o -> status o <> "completed" ->
    after = update_status (id o) newStatus (orders s) ->
    store_change s ev after.

(** ** Further values of a render *)

(** The count in the list header, [pendingOrders.length + activeOrders.length]. *)
Definition active_ticket_count (s : AppState) : nat :=
  (List.length (pendingOrders s) + List.length (activeOrders s))%nat.

(** The notice "No active orders currently." is rendered:
    [pendingOrders.length === 0 && activeOrders.length === 0]. *)
Definition no_active_notice (s : AppState) : bool :=
  (List.length (pendingOrders s) =? 0)%nat && (List.length (activeOrders s) =? 0)%nat.

(** The block "Completed Orders" is rendered: [completedOrders.length > 0]. *)
Definition completed_section_shown (s : AppState) : bool :=
  (0 <? List.length (completedOrders s))%nat.

(** The callback of [steps.map((step, index) => ...)]: each list item shows
    [index + 1] and the step. *)
Fixpoint numbered (index : Z) (steps : list json) : list (Z * json) :=
  match steps with
  | [] => []
  | step :: rest => (index + 1, step) :: numbered (index + 1) rest
  end.

(** [order.recipe.steps.map(...)] in [RecipeDetail]: reading [steps] of null
    throws, and so does calling [map] on anything that is not an array
    (undefined when the member is missing). *)
Definition RecipeDetail_steps (order : OrderTicket) : JsError + list (Z * json) :=
  match recipe order with
  | JNull => inl TypeError
  | JObj ms =>
      match assoc_last "steps" ms with
      | Some (JArr steps) => inr (numbered 0 steps)
      | _ => inl TypeError
      end
  | _ => inl TypeError
  end.

(** ** Further predicates used in the statements *)

(** The payload decodes to an object whose meal member is truthy. *)
Definition accepted (event_data : ParseResult) : bool :=
  match event_data with
  | Parsed (JObj ms) =>
      match assoc_last "meal" ms with
      | Some m => truthy m
      | None => false
      end
  | _ => false
  end.

(** The status is one of the three of the typedef. *)
Definition lifecycle_status (st : string) : Prop :=
  st = "pending" \/ st = "preparing" \/ st = "completed".

(** What a ticket keeps for life: everything but its status. *)
Definition identity_of (t : OrderTicket) : string * Z * json * Z :=
  (id t, orderNumber t, recipe t, timestamp t).

(** A payload with a meal and no steps. *)
Definition toast : json := JObj [("meal", JStr "Toast")].

(** A payload whose meal is the empty text. *)
Definition nameless : json := JObj [("meal", JStr ""); ("steps", JArr [])].

(** The steps of a decoded recipe when it is an object whose steps member is
    an array. *)
Definition steps_array (v : json) : option (list json) :=
  match v with
  | JObj ms =>
      match assoc_last "steps" ms with
      | Some (JArr steps) => Some steps
      | _ => None
      end
  | _ => None
  end.

(** * Properties *)

(** ** Field projections of the setters *)

Lemma with_status_id o st : id (with_status o st) = id o.
Proof. reflexivity. Qed.

Lemma with_status_same o : with_status o (status o) = o.
Proof. destruct o; reflexivity. Qed.

Lemma orders_handleUpdateStatus i st s :
  orders (handleUpdateStatus i st s) = update_status i st (orders s).
Proof. unfold handleUpdateStatus. destruct (st =? "completed")%string; reflexivity. Qed.

Lemma selectedOrderId_handleUpdateStatus i st s :
  selectedOrderId (handleUpdateStatus i st s) = selectedOrderId s.
Proof. unfold handleUpdateStatus. destruct (st =? "completed")%string; reflexivity. Qed.

(** ** update_status as a map *)

Section UpdateStatus.

Variables i newStatus : string.

Lemma update_status_length os :
  List.length (update_status i newStatus os) = List.length os.
Proof. apply length_map. Qed.

Lemma update_status_ids os : map id (update_status i newStatus os) = map id os.
Proof.
  unfold update_status. rewrite map_map. apply map_ext. intros o.
  destruct (id o =? i)%string; reflexivity.
Qed.

Lemma update_status_nth os n o :
  nth_error os n = Some o ->
  nth_error (update_status i newStatus os) n =
    Some (if (id o =? i)%string then with_status o newStatus else o).
Proof.
  intros H. unfold update_status. rewrite nth_error_map, H. reflexivity.
Qed.

Lemma update_status_absent os :
  (forall o, In o os -> id o <> i) -> update_status i newStatus os = os.
Proof.
  induction os as [|o os IH]; intros H; [reflexivity|].
  unfold update_status in *. simpl.
  destruct (String.eqb_spec (id o) i) as [E|_].
  - exfalso. apply (H o); [left; reflexivity | exact E].
  - f_equal. apply IH. intros o' Ho'. apply H. right. exact Ho'.
Qed.

Lemma update_status_twice os :
  update_status i newStatus (update_status i newStatus os) = update_status i newStatus os.
Proof.
  unfold update_status. rewrite map_map. apply map_ext. intros o.
  destruct (id o =? i)%string eqn:E.
  - rewrite with_status_id, E. reflexivity.
  - rewrite E. reflexivity.
Qed.

(** [find] by id commutes with the update, which keeps every id. *)
Lemma find_update_status sel os :
  find (id_is sel) (update_status i newStatus os) =
  option_map (fun o => if (id o =? i)%string then with_status o newStatus else o)
             (find (id_is sel) os).
Proof.
  induction os as [|o os IH]; [reflexivity|].
  unfold update_status in *. simpl.
  assert (E : id_is sel (if (id o =? i)%string then with_status o newStatus else o)
              = id_is sel o).
  { destruct sel; simpl; [|reflexivity].
    destruct (id o =? i)%string; reflexivity. }
  rewrite E. destruct (id_is sel o); [reflexivity | exact IH].
Qed.

End UpdateStatus.

Lemma find_id_is sel os o : find (id_is sel) os = Some o -> In o os /\ sel = Some (id o).
Proof.
  intros H. apply find_some in H. destruct H as [Hin Hid]. split; [exact Hin|].
  destruct sel as [j|]; simpl in Hid; [|discriminate].
  apply String.eqb_eq in Hid. congruence.
Qed.

(** ** C5: the presentation mapping *)

(** C5. [getStatusBadge] is defined on every status text (as a function of
    the embedding it has no failing path, so each input has a badge): pending
    gives the red "Pending" badge, preparing the yellow "In Progress" badge,
    completed the green "Completed" badge, and every other text the grey
    "Unknown" badge. *)
Theorem C5_getStatusBadge_total (st : string) :
  (exists b, getStatusBadge st = b) /\
  getStatusBadge "pending" =
    {| className := "bg-red-100 text-red-700"; icon := Clock; label := "Pending" |} /\
  getStatusBadge "preparing" =
    {| className := "bg-yellow-100 text-yellow-700"; icon := Loader;
       label := "In Progress" |} /\
  getStatusBadge "completed" =
    {| className := "bg-green-100 text-green-700"; icon := CheckCircle;
       label := "Completed" |} /\
  (st <> "pending" -> st <> "preparing" -> st <> "completed" ->
   getStatusBadge st =
     {| className := "bg-gray-100 text-gray-500"; icon := Clock; label := "Unknown" |}).
Proof.
  split; [eexists; reflexivity|].
  repeat split; try reflexivity.
  intros H1 H2 H3. unfold getStatusBadge.
  apply String.eqb_neq in H1, H2, H3. rewrite H1, H2, H3. reflexivity.
Qed.

Lemma C5_getStatusBadge_total_witness :
  getStatusBadge "cancelled" =
    {| className := "bg-gray-100 text-gray-500"; icon := Clock; label := "Unknown" |}.
Proof.
  apply (C5_getStatusBadge_total "cancelled"); intros H; discriminate H.
Defined.

(** ** C9: the selected order *)

Lemma selectedOrder_unresolved s :
  (forall o, In o (orders s) -> selectedOrderId s <> Some (id o)) ->
  selectedOrder s = None.
Proof.
  intros H. unfold selectedOrder. destruct (find _ _) as [o|] eqn:E; [|reflexivity].
  apply find_id_is in E. destruct E as [Hin Hsel].
  exfalso. exact (H o Hin Hsel).
Qed.

Lemma selectedOrder_nothing_selected s : selectedOrderId s = None -> selectedOrder s = None.
Proof.
  intros H. apply selectedOrder_unresolved. intros o _. rewrite H. discriminate.
Qed.

(** C9. The selection starts as none, and whenever the selected id is the id
    of no ticket in the store (in particular when nothing is selected) the
    derived [selectedOrder] is null. *)
Theorem C9_selectedOrder_null (s : AppState) :
  (forall o, In o (orders s) -> selectedOrderId s <> Some (id o)) ->
  selectedOrder s = None /\
  (selectedOrderId s = None -> selectedOrder s = None) /\
  selectedOrderId mount = None /\ selectedOrder mount = None.
Proof.
  intros H. split; [exact (selectedOrder_unresolved s H)|].
  split; [apply selectedOrder_nothing_selected|split; reflexivity].
Qed.

Lemma C9_selectedOrder_null_witness : selectedOrder stale_selection = None.
Proof.
  apply (C9_selectedOrder_null stale_selection).
  intros o Hin. simpl in Hin. destruct Hin as [<-|[]]. discriminate.
Defined.

(** ** C10: what a status update leaves alone *)

(** C10. A call [handleUpdateStatus i newStatus] keeps the length of the
    store and the order of its ids; the ticket at every position keeps its
    id, orderNumber, recipe and timestamp, and is unchanged altogether when
    its id is not [i]; when no ticket has id [i] the store is unchanged. *)
Theorem C10_update_status_frame (i newStatus : string) (s : AppState) :
  List.length (orders (handleUpdateStatus i newStatus s)) = List.length (orders s) /\
  map id (orders (handleUpdateStatus i newStatus s)) = map id (orders s) /\
  (forall n o, nth_error (orders s) n = Some o ->
     exists o', nth_error (orders (handleUpdateStatus i newStatus s)) n = Some o' /\
       id o' = id o /\ orderNumber o' = orderNumber o /\
       recipe o' = recipe o /\ timestamp o' = timestamp o /\
       (id o <> i -> o' = o)) /\
  ((forall o, In o (orders s) -> id o <> i) ->
     orders (handleUpdateStatus i newStatus s) = orders s).
Proof.
  rewrite orders_handleUpdateStatus.
  split; [apply update_status_length|].
  split; [apply update_status_ids|].
  split; [|apply update_status_absent].
  intros n o Hn. rewrite (update_status_nth i newStatus _ n o Hn).
  destruct (String.eqb_spec (id o) i) as [E|E].
  - exists (with_status o newStatus). repeat split; try reflexivity.
    intros Hne. contradiction.
  - exists o. repeat split; reflexivity.
Qed.

Lemma C10_update_status_frame_witness :
  orders (handleUpdateStatus "zz" "completed" two_pending) = orders two_pending.
Proof.
  apply (C10_update_status_frame "zz" "completed" two_pending).
  intros o Hin. simpl in Hin. destruct Hin as [<-|[<-|[]]]; discriminate.
Defined.

(** ** C4: marking complete twice *)

(** C4. Applying [handleUpdateStatus i "completed"] a second time leaves the
    store as the first application left it, and after one application as
    after two every ticket with id [i] sits at its position with status
    completed. *)
Theorem C4_mark_complete_idempotent (i : string) (s : AppState) :
  orders (handleUpdateStatus i "completed" (handleUpdateStatus i "completed" s)) =
  orders (handleUpdateStatus i "completed" s) /\
  (forall n o, nth_error (orders s) n = Some o -> id o = i ->
     nth_error (orders (handleUpdateStatus i "completed" s)) n =
       Some (with_status o "completed") /\
     nth_error (orders (handleUpdateStatus i "completed"
                          (handleUpdateStatus i "completed" s))) n =
       Some (with_status o "completed")).
Proof.
  rewrite !orders_handleUpdateStatus, update_status_twice.
  split; [reflexivity|].
  intros n o Hn Hid. rewrite (update_status_nth i "completed" _ n o Hn).
  apply String.eqb_eq in Hid. rewrite Hid. split; reflexivity.
Qed.

Lemma C4_mark_complete_idempotent_witness :
  nth_error (orders (handleUpdateStatus "a" "completed" two_pending)) 0 =
    Some {| id := "a"; orderNumber := 101; recipe := panini;
            status := "completed"; timestamp := 1000 |} /\
  nth_error (orders (handleUpdateStatus "a" "completed"
                       (handleUpdateStatus "a" "completed" two_pending))) 0 =
    Some {| id := "a"; orderNumber := 101; recipe := panini;
            status := "completed"; timestamp := 1000 |}.
Proof.
  destruct (C4_mark_complete_idempotent "a" two_pending) as [_ H].
  apply (H 0%nat {| id := "a"; orderNumber := 101; recipe := panini;
                    status := "pending"; timestamp := 1000 |});
    reflexivity.
Defined.

(** ** C8: start cooking, then pause *)

Lemma selectedOrder_handleUpdateStatus i st s :
  selectedOrder (handleUpdateStatus i st s) =
  option_map (fun o => if (id o =? i)%string then with_status o st else o)
             (selectedOrder s).
Proof.
  unfold selectedOrder.
  rewrite selectedOrderId_handleUpdateStatus, orders_handleUpdateStatus.
  apply find_update_status.
Qed.

(** Pressing the toggle on the selected order [o] gives it the other one of
    pending and preparing, when it is not completed. *)
Lemma click_toggle_selected s o :
  selectedOrder s = Some o -> status o <> "completed" ->
  step s ClickToggle =
    handleUpdateStatus (id o) (if (status o =? "pending")%string then "preparing" else "pending") s.
Proof.
  intros Hsel Hst. simpl. rewrite Hsel. unfold toggle_button.
  apply String.eqb_neq in Hst. rewrite Hst. reflexivity.
Qed.

(** C8. With a pending ticket [o] selected, "Start Cooking" makes it the
    same ticket with status preparing, and "Pause" pressed next makes it the
    same ticket with status pending, which is [o] again. *)
Theorem C8_start_then_pause (s : AppState) (o : OrderTicket) :
  selectedOrder s = Some o -> status o = "pending" ->
  selectedOrder (step s ClickToggle) = Some (with_status o "preparing") /\
  selectedOrder (step (step s ClickToggle) ClickToggle) = Some (with_status o "pending") /\
  with_status o "pending" = o.
Proof.
  intros Hsel Hst.
  assert (H1 : step s ClickToggle = handleUpdateStatus (id o) "preparing" s).
  { rewrite (click_toggle_selected s o Hsel); [|rewrite Hst; discriminate].
    rewrite Hst. reflexivity. }
  assert (S1 : selectedOrder (step s ClickToggle) = Some (with_status o "preparing")).
  { rewrite H1, selectedOrder_handleUpdateStatus, Hsel. simpl.
    rewrite String.eqb_refl. reflexivity. }
  split; [exact S1|]. split; [|rewrite <- Hst; apply with_status_same].
  rewrite (click_toggle_selected _ _ S1); [|discriminate].
  rewrite selectedOrder_handleUpdateStatus, S1. simpl.
  rewrite String.eqb_refl. reflexivity.
Qed.

Lemma C8_start_then_pause_witness :
  selectedOrder (step two_pending ClickToggle) =
    Some {| id := "b"; orderNumber := 101; recipe := panini;
            status := "preparing"; timestamp := 2000 |} /\
  selectedOrder (step (step two_pending ClickToggle) ClickToggle) =
    Some {| id := "b"; orderNumber := 101; recipe := panini;
            status := "pending"; timestamp := 2000 |} /\
  with_status {| id := "b"; orderNumber := 101; recipe := panini;
                 status := "pending"; timestamp := 2000 |} "pending" =
    {| id := "b"; orderNumber := 101; recipe := panini;
       status := "pending"; timestamp := 2000 |}.
Proof.
  apply (C8_start_then_pause two_pending
           {| id := "b"; orderNumber := 101; recipe := panini;
              status := "pending"; timestamp := 2000 |});
    reflexivity.
Defined.

(** ** C6: malformed stream events *)

Lemma assoc_last_absent k ms :
  existsb (fun kv => (fst kv =? k)%string) ms = false -> assoc_last k ms = None.
Proof.
  induction ms as [|[k' v] ms IH]; simpl; intros H; [reflexivity|].
  apply orb_false_iff in H. destruct H as [Hk Hms].
  rewrite (IH Hms), Hk. reflexivity.
Qed.

(** Every path of the handler that creates no ticket writes one console line
    and touches nothing else. *)
Lemma onmessage_malformed event_data env s :
  malformed event_data ->
  onmessage event_data env s = console_write (diagnostic_for event_data) s.
Proof.
  unfold onmessage, Handler.try_catch, onmessage_body.
  destruct event_data as [v|]; simpl; intros H; [|reflexivity].
  destruct v as [|b|n|t|items|ms]; simpl in *.
  - reflexivity.
  - unfold Handler.bind; simpl. destruct b; reflexivity.
  - unfold Handler.bind; simpl. destruct (negb (n =? 0)); reflexivity.
  - unfold Handler.bind; simpl. destruct (negb (t =? "")%string); reflexivity.
  - reflexivity.
  - unfold Handler.bind, Handler.of_result; simpl.
    rewrite (assoc_last_absent "meal" ms H). reflexivity.
Qed.

(** C6. When the payload of a stream event fails to decode or has no meal
    field, the handler writes one line to the console (the error line of the
    catch block, or the log line showing an undefined meal) and changes
    nothing else: the store, the selection and so every rendered list are as
    before, no ticket is created and nothing is scheduled. *)
Theorem C6_malformed_event_dropped (event_data : ParseResult) (env : Env) (s : AppState) :
  malformed event_data ->
  console (onmessage event_data env s) = (console s ++ [diagnostic_for event_data])%list /\
  orders (onmessage event_data env s) = orders s /\
  selectedOrderId (onmessage event_data env s) = selectedOrderId s /\
  selectedOrder (onmessage event_data env s) = selectedOrder s /\
  pendingOrders (onmessage event_data env s) = pendingOrders s /\
  activeOrders (onmessage event_data env s) = activeOrders s /\
  completedOrders (onmessage event_data env s) = completedOrders s /\
  timeouts (onmessage event_data env s) = timeouts s /\
  eventSource_open (onmessage event_data env s) = eventSource_open s.
Proof.
  intros H. rewrite (onmessage_malformed event_data env s H).
  repeat split; reflexivity.
Qed.

Lemma C6_malformed_event_dropped_witness :
  console (onmessage (Parsed (JObj [("steps", JArr [])])) env_b one_pending) =
    (console one_pending ++
     [{| level := LevelLog; text := "meal: "; arg := ArgValue None |}])%list /\
  orders (onmessage (Parsed (JObj [("steps", JArr [])])) env_b one_pending) =
    orders one_pending.
Proof.
  destruct (C6_malformed_event_dropped (Parsed (JObj [("steps", JArr [])])) env_b
              one_pending) as [Hc [Ho _]].
  - reflexivity.
  - split; [exact Hc | exact Ho].
Defined.

(** ** C7: the deselection timeout *)

Lemma click_complete_selected s o :
  selectedOrder s = Some o -> status o <> "completed" ->
  step s ClickComplete = handleUpdateStatus (id o) "completed" s.
Proof.
  intros Hsel Hst. simpl. rewrite Hsel. unfold complete_button.
  apply String.eqb_neq in Hst. rewrite Hst. reflexivity.
Qed.

(** C7, as stated, fails: ticket "a" is selected and marked complete, ticket
    "b" arrives during the delay and becomes the selection, and the timeout
    then clears the selection although "b" is not the ticket that was
    completed. *)
Lemma C7_deselect_counterexample :
  ~ deselect_only_completed one_pending [Message (Parsed panini) env_b].
Proof.
  intros H.
  specialize (H {| id := "a"; orderNumber := 101; recipe := panini;
                   status := "pending"; timestamp := 1000 |} eq_refl).
  assert (Hst : "pending" <> "completed") by discriminate.
  specialize (H Hst). vm_compute in H. discriminate H.
Qed.

(** C7, amended. A status update never touches the selection itself; it
    schedules one deselection, 500 ms ahead, exactly when the new status is
    completed, whichever ticket is selected.  When a scheduled deselection
    runs, the selection becomes none whatever it was and the store is
    untouched.  The "Mark as Complete" button issues the update for the
    selected ticket. *)
Theorem C7_deselect_unconditional (i newStatus : string) (s : AppState) :
  selectedOrderId (handleUpdateStatus i newStatus s) = selectedOrderId s /\
  timeouts (handleUpdateStatus i newStatus s) =
    (timeouts s ++ (if (newStatus =? "completed")%string then [500] else []))%list /\
  (timeouts s <> [] ->
     selectedOrderId (step s TimeoutFires) = None /\
     orders (step s TimeoutFires) = orders s /\
     timeouts (step s TimeoutFires) = tl (timeouts s)) /\
  (timeouts s = [] -> step s TimeoutFires = s) /\
  (forall o, selectedOrder s = Some o -> status o <> "completed" ->
     step s ClickComplete = handleUpdateStatus (id o) "completed" s).
Proof.
  split; [apply selectedOrderId_handleUpdateStatus|].
  split.
  { unfold handleUpdateStatus. destruct (newStatus =? "completed")%string; simpl.
    - reflexivity.
    - rewrite app_nil_r. reflexivity. }
  split.
  { intros H. simpl. destruct (timeouts s) as [|d rest]; [contradiction|].
    repeat split; reflexivity. }
  split.
  { intros H. simpl. rewrite H. reflexivity. }
  apply click_complete_selected.
Qed.

Lemma C7_deselect_unconditional_witness :
  selectedOrderId
    (step (handleUpdateStatus "a" "completed" two_pending) TimeoutFires) = None /\
  selectedOrderId (handleUpdateStatus "a" "completed" two_pending) = Some "b".
Proof.
  split; [|reflexivity].
  destruct (C7_deselect_unconditional "a" "completed"
              (handleUpdateStatus "a" "completed" two_pending)) as [_ [_ [H _]]].
  apply H. discriminate.
Defined.

(** ** How one event changes the store *)

(** The handler either leaves the store alone or appends the ticket that the
    factory builds from the [orders] of the effect closure. *)
Lemma onmessage_orders event_data env s :
  orders (onmessage event_data env s) = orders s \/
  exists data, event_data = Parsed data /\
    orders (onmessage event_data env s) =
      (orders s ++ [createNewTicket (effect_orders s) data env])%list /\
    selectedOrderId (onmessage event_data env s) = Some (randomUUID env).
Proof.
  destruct event_data as [v|]; [|left; reflexivity].
  unfold onmessage, Handler.try_catch, onmessage_body, Handler.bind, Handler.of_result.
  destruct v as [|b|n|t|items|ms]; simpl.
  - left; reflexivity.
  - left. destruct b; reflexivity.
  - left. destruct (negb (n =? 0)); reflexivity.
  - left. destruct (negb (t =? "")%string); reflexivity.
  - left; reflexivity.
  - destruct (assoc_last "meal" ms) as [m|]; simpl; [|left; reflexivity].
    destruct (truthy m); simpl; [|left; reflexivity].
    right. eexists. repeat split; reflexivity.
Qed.

Lemma onmessage_frame event_data env s :
  effect_orders (onmessage event_data env s) = effect_orders s /\
  completedOrders (onmessage event_data env s) = completedOrders s /\
  timeouts (onmessage event_data env s) = timeouts s /\
  eventSource_open (onmessage event_data env s) = eventSource_open s.
Proof.
  destruct event_data as [v|]; [|repeat split; reflexivity].
  unfold onmessage, Handler.try_catch, onmessage_body, Handler.bind, Handler.of_result.
  destruct v as [|b|n|t|items|ms]; simpl.
  - repeat split; reflexivity.
  - destruct b; repeat split; reflexivity.
  - destruct (negb (n =? 0)); repeat split; reflexivity.
  - destruct (negb (t =? "")%string); repeat split; reflexivity.
  - repeat split; reflexivity.
  - destruct (assoc_last "meal" ms) as [m|]; simpl; [|repeat split; reflexivity].
    destruct (truthy m); simpl; repeat split; reflexivity.
Qed.

Lemma press_button_change s ev o button :
  selectedOrder s = Some o ->
  (button = toggle_button o \/ button = complete_button o) ->
  store_change s ev (orders (press button s)).
Proof.
  intros Hsel Hb.
  destruct (String.eqb_spec (status o) "completed") as [E|E].
  - apply store_same.
    destruct Hb as [-> | ->]; unfold toggle_button, complete_button;
      rewrite E; reflexivity.
  - pose proof E as E'. apply String.eqb_neq in E'.
    destruct Hb as [-> | ->]; unfold toggle_button, complete_button;
      rewrite E'; cbv [negb press]; rewrite orders_handleUpdateStatus;
      eapply store_update; eauto.
Qed.

Lemma step_store_change s ev : store_change s ev (orders (step s ev)).
Proof.
  destruct ev as [event_data env| |i| | |]; simpl.
  - destruct (eventSource_open s); [|apply store_same; reflexivity].
    destruct (onmessage_orders event_data env s) as [H|[data [-> [H _]]]].
    + apply store_same. exact H.
    + eapply store_append; [reflexivity | exact H].
  - destruct (eventSource_open s); apply store_same; reflexivity.
  - destruct (existsb _ _); apply store_same; reflexivity.
  - destruct (selectedOrder s) as [o|] eqn:Hsel; [|apply store_same; reflexivity].
    apply (press_button_change s _ o); [exact Hsel | left; reflexivity].
  - destruct (selectedOrder s) as [o|] eqn:Hsel; [|apply store_same; reflexivity].
    apply (press_button_change s _ o); [exact Hsel | right; reflexivity].
  - destruct (timeouts s); apply store_same; reflexivity.
Qed.

(** ** Unique ids *)

Lemma existsb_eqb_false x l : existsb (String.eqb x) l = false -> ~ In x l.
Proof.
  intros H Hin.
  assert (E : existsb (String.eqb x) l = true).
  { apply existsb_exists. exists x. split; [exact Hin | apply String.eqb_refl]. }
  congruence.
Qed.

Lemma distinct_NoDup l : distinct l = true -> NoDup l.
Proof.
  induction l as [|x l IH]; simpl; intros H; [constructor|].
  apply andb_true_iff in H. destruct H as [Hx Hl].
  apply negb_true_iff in Hx.
  constructor; [apply existsb_eqb_false; exact Hx | apply IH; exact Hl].
Qed.

Lemma NoDup_ids_inj (os : list OrderTicket) a b :
  NoDup (map id os) -> In a os -> In b os -> id a = id b -> a = b.
Proof.
  induction os as [|o os IH]; simpl; intros Hnd Ha Hb E; [contradiction|].
  inversion Hnd as [|? ? Hnot Hnd']; subst.
  destruct Ha as [->|Ha], Hb as [->|Hb].
  - reflexivity.
  - exfalso. apply Hnot. rewrite E. apply in_map. exact Hb.
  - exfalso. apply Hnot. rewrite <- E. apply in_map. exact Ha.
  - apply IH; assumption.
Qed.

(** ** C3: completed is terminal *)

Lemma buttons_of_completed t : status t = "completed" -> RecipeDetail_buttons (Some t) = [].
Proof.
  intros H. unfold RecipeDetail_buttons, toggle_button, complete_button.
  rewrite H. reflexivity.
Qed.

(** One event keeps a completed ticket where and as it is, and keeps ids
    unique when the id it may hand out is new. *)
Lemma step_keeps_completed s ev used n t :
  NoDup (map id (orders s)) ->
  incl (map id (orders s)) used ->
  fresh_uuids used [ev] = true ->
  nth_error (orders s) n = Some t ->
  status t = "completed" ->
  nth_error (orders (step s ev)) n = Some t /\
  NoDup (map id (orders (step s ev))) /\
  forall rest, fresh_uuids used (ev :: rest) = true ->
    exists used', incl (map id (orders (step s ev))) used' /\ fresh_uuids used' rest = true.
Proof.
  intros Hnd Hincl Hfresh Hn Hst.
  destruct (step_store_change s ev) as [E | data env -> E | o newStatus Hsel Ho E];
    rewrite E; clear E.
  - split; [exact Hn|]. split; [exact Hnd|].
    intros rest Hrest. destruct ev; simpl in Hrest;
      try (exists used; split; [exact Hincl | exact Hrest]).
    apply andb_true_iff in Hrest. destruct Hrest as [_ Hrest].
    exists (randomUUID env :: used). split; [|exact Hrest].
    apply incl_tl. exact Hincl.
  - simpl in Hfresh. apply andb_true_iff in Hfresh. destruct Hfresh as [Hnew _].
    apply negb_true_iff, existsb_eqb_false in Hnew.
    split.
    { rewrite nth_error_app1; [exact Hn|]. apply nth_error_Some. congruence. }
    split.
    { rewrite map_app. simpl. apply NoDup_app.
      - exact Hnd.
      - constructor; [intros []|constructor].
      - intros x Hx [<-|[]]. apply Hnew, Hincl, Hx. }
    intros rest Hrest. simpl in Hrest.
    apply andb_true_iff in Hrest. destruct Hrest as [_ Hrest].
    exists (randomUUID env :: used). split; [|exact Hrest].
    rewrite map_app. simpl. intros x Hx. apply in_app_or in Hx.
    destruct Hx as [Hx|[<-|[]]]; [right; apply Hincl, Hx | left; reflexivity].
  - split.
    { rewrite (update_status_nth _ _ _ n t Hn).
      destruct (String.eqb_spec (id t) (id o)) as [Eid|_]; [|reflexivity].
      exfalso. apply Ho.
      destruct (find_id_is _ _ _ Hsel) as [Hin _].
      rewrite <- (NoDup_ids_inj (orders s) t o Hnd (nth_error_In _ _ Hn) Hin Eid).
      exact Hst. }
    rewrite update_status_ids. split; [exact Hnd|].
    intros rest Hrest. destruct ev; simpl in Hrest;
      try (exists used; split; [exact Hincl | exact Hrest]).
    apply andb_true_iff in Hrest. destruct Hrest as [_ Hrest].
    exists (randomUUID env :: used). split; [|exact Hrest].
    apply incl_tl. exact Hincl.
Qed.

Lemma fresh_uuids_head used ev rest :
  fresh_uuids used (ev :: rest) = true -> fresh_uuids used [ev] = true.
Proof.
  destruct ev; simpl; try reflexivity.
  intros H. apply andb_true_iff in H. destruct H as [H _]. rewrite H. reflexivity.
Qed.

Lemma run_keeps_completed evs : forall s used n t,
  NoDup (map id (orders s)) ->
  incl (map id (orders s)) used ->
  fresh_uuids used evs = true ->
  nth_error (orders s) n = Some t ->
  status t = "completed" ->
  nth_error (orders (run s evs)) n = Some t.
Proof.
  induction evs as [|ev evs IH]; intros s used n t Hnd Hincl Hfresh Hn Hst.
  - exact Hn.
  - destruct (step_keeps_completed s ev used n t Hnd Hincl
                (fresh_uuids_head _ _ _ Hfresh) Hn Hst) as [Hn' [Hnd' Hnext]].
    destruct (Hnext evs Hfresh) as [used' [Hincl' Hfresh']].
    exact (IH (step s ev) used' n t Hnd' Hincl' Hfresh' Hn' Hst).
Qed.

(** C3. A completed ticket has neither button in [RecipeDetail], and through
    any sequence of events (clicks on tickets and buttons, stream events,
    timeouts) it stays at its position in the store exactly as it is.  Ids
    are unique: those in the store are, and [crypto.randomUUID] hands out new
    ones. *)
Theorem C3_completed_is_terminal (s : AppState) (evs : list Event)
    (n : nat) (t : OrderTicket) :
  distinct (map id (orders s)) = true ->
  fresh_uuids (map id (orders s)) evs = true ->
  nth_error (orders s) n = Some t ->
  status t = "completed" ->
  RecipeDetail_buttons (Some t) = [] /\
  nth_error (orders (run s evs)) n = Some t.
Proof.
  intros Hd Hfresh Hn Hst. split; [apply buttons_of_completed; exact Hst|].
  apply (run_keeps_completed evs s (map id (orders s)) n t); try assumption.
  - apply distinct_NoDup. exact Hd.
  - apply incl_refl.
Qed.

Lemma C3_completed_is_terminal_witness :
  RecipeDetail_buttons
    (Some {| id := "a"; orderNumber := 101; recipe := panini;
             status := "completed"; timestamp := 1000 |}) = [] /\
  nth_error
    (orders (run (step one_pending ClickComplete)
               [ClickToggle; ClickComplete; Message (Parsed panini) env_b;
                ClickTicket "a"; ClickToggle; TimeoutFires; ClickTicket "b";
                ClickComplete])) 0 =
    Some {| id := "a"; orderNumber := 101; recipe := panini;
            status := "completed"; timestamp := 1000 |}.
Proof.
  apply (C3_completed_is_terminal (step one_pending ClickComplete)); reflexivity.
Defined.

(** ** What the hooks with an empty dependency list keep *)

Lemma handleUpdateStatus_frame i st s :
  effect_orders (handleUpdateStatus i st s) = effect_orders s /\
  completedOrders (handleUpdateStatus i st s) = completedOrders s.
Proof.
  unfold handleUpdateStatus. destruct (st =? "completed")%string; split; reflexivity.
Qed.

Lemma press_frame button s :
  effect_orders (press button s) = effect_orders s /\
  completedOrders (press button s) = completedOrders s.
Proof.
  destruct button as [|[i st] rest]; [split; reflexivity|].
  apply handleUpdateStatus_frame.
Qed.

(** No event reaches the [orders] of the effect closure or the memo cell of
    [completedOrders]. *)
Lemma step_frame s ev :
  effect_orders (step s ev) = effect_orders s /\
  completedOrders (step s ev) = completedOrders s.
Proof.
  destruct ev as [event_data env| |i| | |]; simpl.
  - destruct (eventSource_open s); [|split; reflexivity].
    destruct (onmessage_frame event_data env s) as [H1 [H2 _]]. split; assumption.
  - destruct (eventSource_open s); split; reflexivity.
  - destruct (existsb _ _); split; reflexivity.
  - destruct (selectedOrder s); [apply press_frame | split; reflexivity].
  - destruct (selectedOrder s); [apply press_frame | split; reflexivity].
  - destruct (timeouts s); split; reflexivity.
Qed.

Lemma run_frame evs : forall s,
  effect_orders (run s evs) = effect_orders s /\
  completedOrders (run s evs) = completedOrders s.
Proof.
  induction evs as [|ev evs IH]; intros s; [split; reflexivity|].
  simpl. destruct (IH (step s ev)) as [H1 H2], (step_frame s ev) as [H3 H4].
  split; congruence.
Qed.

(** ** C1: order numbers *)




(** The handler gives the factory the [orders] of the first render, which is
    empty, so every ticket created after mounting is numbered 101. *)
Lemma run_mount_numbers evs t : In t (orders (run mount evs)) -> orderNumber t = 101.
Proof.
  assert (G : forall evs s, effect_orders s = [] ->
            (forall t, In t (orders s) -> orderNumber t = 101) ->
            forall t, In t (orders (run s evs)) -> orderNumber t = 101).
  { clear. induction evs as [|ev evs IH]; intros s He Hs; [exact Hs|].
    simpl. apply IH.
    - destruct (step_frame s ev) as [H _]. congruence.
    - intros t.
      destruct (step_store_change s ev) as [E | data env _ E | o st _ _ E]; rewrite E.
      + apply Hs.
      + rewrite He. intros Hin. apply in_app_or in Hin.
        destruct Hin as [Hin|[<-|[]]]; [apply Hs, Hin | reflexivity].
      + unfold update_status. intros Hin. apply in_map_iff in Hin.
        destruct Hin as [o' [<- Hin]].
        destruct (id o' =? id o)%string; [simpl|]; apply Hs, Hin. }
  apply (G evs mount); [reflexivity | intros t' []].
Qed.

(** C1, evaluated at two valid payloads in a row: the first ticket is
    numbered 101 and the second is numbered 101 again, where the numbering
    rule applied to the store asks for 102. *)
Theorem C1_order_numbers_repeat :
  map orderNumber (orders (run mount [Message (Parsed panini) env_a])) = [101] /\
  map orderNumber
    (orders (run mount [Message (Parsed panini) env_a; Message (Parsed panini) env_b])) =
    [101; 101] /\
  nextOrderNumber (orders (run mount [Message (Parsed panini) env_a])) = 102.
Proof. repeat split; reflexivity. Qed.

(** ** C2: the three views *)

(** Filtering one list by the three statuses splits it, when every status is
    one of the three: the recomputed filters are not where the views fail. *)
Lemma filters_partition (os : list OrderTicket) :
  (forall o, In o os ->
     status o = "pending" \/ status o = "preparing" \/ status o = "completed") ->
  (List.length (filter (status_is "pending") os) +
   List.length (filter (status_is "preparing") os) +
   List.length (filter (status_is "completed") os) = List.length os)%nat.
Proof.
  induction os as [|o os IH]; intros H; [reflexivity|].
  assert (IH' := IH (fun o' Ho' => H o' (or_intror Ho'))).
  cbn [filter].
  destruct (H o (or_introl eq_refl)) as [E|[E|E]];
    replace (status_is "pending" o) with (status o =? "pending")%string by reflexivity;
    replace (status_is "preparing" o) with (status o =? "preparing")%string by reflexivity;
    replace (status_is "completed" o) with (status o =? "completed")%string by reflexivity;
    rewrite E; cbn -[filter]; lia.
Qed.

(** The memo cell of [completedOrders] is filled by the first render and
    never again: after mounting it is empty whatever happens. *)
Lemma run_mount_completedOrders evs : completedOrders (run mount evs) = [].
Proof. destruct (run_frame evs mount) as [_ H]. rewrite H. reflexivity. Qed.

(** C2, evaluated after one ticket arrives and is marked complete: the store
    holds that ticket, with status completed, and each of the three views is
    empty, so the ticket is in none of them and their sizes sum to 0, not 1. *)
Theorem C2_completed_view_stale :
  orders one_completed =
    [{| id := "a"; orderNumber := 101; recipe := panini;
        status := "completed"; timestamp := 1000 |}] /\
  pendingOrders one_completed = [] /\
  activeOrders one_completed = [] /\
  completedOrders one_completed = [] /\
  (List.length (pendingOrders one_completed) +
   List.length (activeOrders one_completed) +
   List.length (completedOrders one_completed) <> List.length (orders one_completed))%nat.
Proof. repeat split; try reflexivity. simpl. discriminate. Qed.


(** * Further properties of the component *)

(** ** The message handler on accepted and rejected payloads *)

(** The two outcomes of the handler: one console line and nothing else, or
    the whole accepting path. *)
Lemma onmessage_cases event_data env s :
  (accepted event_data = false /\
   exists line : ConsoleLine, onmessage event_data env s = console_write line s) \/
  (accepted event_data = true /\
   exists data m, event_data = Parsed data /\ get_meal data = inr (Some m) /\
     onmessage event_data env s =
       setSelectedOrderId (Some (randomUUID env))
         (console_write
            {| level := LevelLog; text := "orders: "; arg := ArgOrders (effect_orders s) |}
            (setOrders
               (fun prevOrders =>
                  (prevOrders ++ [createNewTicket (effect_orders s) data env])%list)
               (console_write
                  {| level := LevelLog; text := "newTicket: ";
                     arg := ArgTicket (createNewTicket (effect_orders s) data env) |}
                  (console_write
                     {| level := LevelLog; text := "meal: "; arg := ArgValue (Some m) |}
                     s))))).
Proof.
  destruct event_data as [v|]; [|left; split; [reflexivity | eexists; reflexivity]].
  unfold onmessage, Handler.try_catch, onmessage_body, Handler.bind, Handler.of_result.
  destruct v as [|b|n|t|items|ms]; simpl.
  - left; split; [reflexivity | eexists; reflexivity].
  - left; split; [reflexivity | destruct b; eexists; reflexivity].
  - left; split; [reflexivity | destruct (negb (n =? 0)); eexists; reflexivity].
  - left; split; [reflexivity | destruct (negb (t =? "")%string); eexists; reflexivity].
  - left; split; [reflexivity | eexists; reflexivity].
  - destruct (assoc_last "meal" ms) as [m|] eqn:Em; simpl;
      [|left; split; [reflexivity | eexists; reflexivity]].
    destruct (truthy m); simpl; [|left; split; [reflexivity | eexists; reflexivity]].
    right. split; [reflexivity|]. exists (JObj ms), m.
    split; [reflexivity|]. split; [simpl; rewrite Em|]; reflexivity.
Qed.

(** X1. A payload that decodes to an object with a truthy meal makes the
    handler append exactly one ticket at the end of the store: its id is the
    fresh UUID, its number comes from the [orders] of the effect closure, its
    recipe is the whole payload, its status pending, its timestamp the
    current time.  The new ticket's id becomes the selection, three lines go
    to the console, and nothing is scheduled. *)
Theorem X1_onmessage_accepts (data : json) (env : Env) (s : AppState) :
  accepted (Parsed data) = true ->
  orders (onmessage (Parsed data) env s) =
    (orders s ++
     [{| id := randomUUID env;
         orderNumber := nextOrderNumber (effect_orders s);
         recipe := data;
         status := "pending";
         timestamp := now env |}])%list /\
  selectedOrderId (onmessage (Parsed data) env s) = Some (randomUUID env) /\
  List.length (console (onmessage (Parsed data) env s)) =
    (List.length (console s) + 3)%nat /\
  timeouts (onmessage (Parsed data) env s) = timeouts s.
Proof.
  intros Hacc.
  destruct (onmessage_cases (Parsed data) env s) as [[H _]|[_ [d [m [Hd [_ E]]]]]];
    [congruence|].
  injection Hd as <-. rewrite E. simpl.
  repeat split; try reflexivity.
  rewrite !length_app. simpl. lia.
Qed.

Lemma X1_onmessage_accepts_witness :
  orders (onmessage (Parsed panini) env_b one_pending) =
    (orders one_pending ++
     [{| id := "b"; orderNumber := 101; recipe := panini;
         status := "pending"; timestamp := 2000 |}])%list /\
  selectedOrderId (onmessage (Parsed panini) env_b one_pending) = Some "b".
Proof.
  destruct (X1_onmessage_accepts panini env_b one_pending) as [Ho [Hs _]].
  - reflexivity.
  - split; [exact Ho | exact Hs].
Defined.

(** X2. Every other payload is dropped, also one that has a meal member
    whose value is falsy (empty text, 0, false, null): the handler writes one
    console line and leaves the store, the selection, the pending timeouts
    and the stream as they are. *)
Theorem X2_onmessage_rejects (event_data : ParseResult) (env : Env) (s : AppState) :
  accepted event_data = false ->
  orders (onmessage event_data env s) = orders s /\
  selectedOrderId (onmessage event_data env s) = selectedOrderId s /\
  timeouts (onmessage event_data env s) = timeouts s /\
  eventSource_open (onmessage event_data env s) = eventSource_open s /\
  List.length (console (onmessage event_data env s)) = S (List.length (console s)).
Proof.
  intros Hrej.
  destruct (onmessage_cases event_data env s) as [[_ [line E]]|[H _]]; [|congruence].
  rewrite E. simpl. repeat split; try reflexivity.
  rewrite length_app. simpl. lia.
Qed.

Lemma X2_onmessage_rejects_witness :
  has_meal_field nameless = true /\
  orders (onmessage (Parsed nameless) env_b one_pending) = orders one_pending /\
  selectedOrderId (onmessage (Parsed nameless) env_b one_pending) = Some "a".
Proof.
  split; [reflexivity|].
  destruct (X2_onmessage_rejects (Parsed nameless) env_b one_pending) as [Ho [Hs _]].
  - reflexivity.
  - split; [exact Ho | exact Hs].
Defined.

(** ** One event, case by case *)

Lemma ticket_items_in_store s i : In i (ticket_items s) -> In i (map id (orders s)).
Proof.
  unfold ticket_items, activeOrders, pendingOrders. intros H.
  apply in_map_iff in H. destruct H as [o [<- Ho]]. apply in_map.
  apply in_app_or in Ho. destruct Ho as [Ho|Ho]; apply filter_In in Ho; apply Ho.
Qed.

(** What one event does to the store and the selection: it leaves the store
    alone (keeping the selection, clearing it, or moving it to a ticket on
    screen), or it appends the ticket of an accepted payload and selects it,
    or it is a button of the selected, not yet completed, order and issues a
    status update with one of the three statuses. *)
Lemma step_cases s ev :
  (orders (step s ev) = orders s /\
   (selectedOrderId (step s ev) = selectedOrderId s \/
    selectedOrderId (step s ev) = None \/
    exists i, In i (ticket_items s) /\ selectedOrderId (step s ev) = Some i)) \/
  (exists data env, ev = Message (Parsed data) env /\
     accepted (Parsed data) = true /\
     orders (step s ev) =
       (orders s ++ [createNewTicket (effect_orders s) data env])%list /\
     selectedOrderId (step s ev) = Some (randomUUID env)) \/
  (exists o st, selectedOrder s = Some o /\ status o <> "completed" /\
     lifecycle_status st /\ step s ev = handleUpdateStatus (id o) st s).
Proof.
  destruct ev as [event_data env| |i| | |].
  - simpl. destruct (eventSource_open s); [|left; split; [|left]; reflexivity].
    destruct (onmessage_cases event_data env s)
      as [[_ [line E]]|[Hacc [data [m [-> [_ E]]]]]]; rewrite E.
    + left; split; [|left]; reflexivity.
    + right; left. exists data, env.
      split; [reflexivity|]. split; [exact Hacc|]. split; reflexivity.
  - simpl. destruct (eventSource_open s); left; split; [|left| |left]; reflexivity.
  - simpl. destruct (existsb (String.eqb i) (ticket_items s)) eqn:E.
    + left. split; [reflexivity|]. right; right. exists i. split; [|reflexivity].
      apply existsb_exists in E. destruct E as [j [Hj Hij]].
      apply String.eqb_eq in Hij. subst j. exact Hj.
    + left; split; [|left]; reflexivity.
  - destruct (selectedOrder s) as [o|] eqn:Hsel;
      [|simpl; rewrite Hsel; left; split; [|left]; reflexivity].
    destruct (String.eqb_spec (status o) "completed") as [E|E].
    + simpl. rewrite Hsel. unfold toggle_button. rewrite E.
      left; split; [|left]; reflexivity.
    + right; right.
      exists o, (if (status o =? "pending")%string then "preparing" else "pending").
      split; [reflexivity|]. split; [exact E|]. split.
      * unfold lifecycle_status. destruct (status o =? "pending")%string; auto.
      * apply click_toggle_selected; assumption.
  - destruct (selectedOrder s) as [o|] eqn:Hsel;
      [|simpl; rewrite Hsel; left; split; [|left]; reflexivity].
    destruct (String.eqb_spec (status o) "completed") as [E|E].
    + simpl. rewrite Hsel. unfold complete_button. rewrite E.
      left; split; [|left]; reflexivity.
    + right; right. exists o, "completed".
      split; [reflexivity|]. split; [exact E|]. split.
      * unfold lifecycle_status. auto.
      * apply click_complete_selected; assumption.
  - simpl. destruct (timeouts s); left; split; [|left| |right; left]; reflexivity.
Qed.

(** ** The ticket of an accepted payload *)




(** ** Invariants of the store *)

Lemma in_update_status i st os t :
  In t (update_status i st os) -> exists o, In o os /\ (t = o \/ t = with_status o st).
Proof.
  unfold update_status. intros H. apply in_map_iff in H. destruct H as [o [E Ho]].
  exists o. split; [exact Ho|]. destruct (id o =? i)%string; auto.
Qed.

Lemma step_lifecycle s ev :
  (forall t, In t (orders s) -> lifecycle_status (status t)) ->
  forall t, In t (orders (step s ev)) -> lifecycle_status (status t).
Proof.
  intros Hs t.
  destruct (step_cases s ev) as [[E _]|[[data [env [_ [_ [E _]]]]]|[o [st [_ [_ [Hst E]]]]]]];
    rewrite E.
  - apply Hs.
  - intros Hin. apply in_app_or in Hin. destruct Hin as [Hin|[<-|[]]].
    + apply Hs, Hin.
    + left; reflexivity.
  - rewrite orders_handleUpdateStatus. intros Hin.
    apply in_update_status in Hin. destruct Hin as [o' [Ho' [->| ->]]].
    + apply Hs, Ho'.
    + exact Hst.
Qed.

Lemma run_lifecycle evs : forall s,
  (forall t, In t (orders s) -> lifecycle_status (status t)) ->
  forall t, In t (orders (run s evs)) -> lifecycle_status (status t).
Proof.
  induction evs as [|ev evs IH]; intros s Hs; [exact Hs|].
  simpl. apply IH. apply step_lifecycle. exact Hs.
Qed.

(** X4. The three statuses are closed under every event: if every ticket of
    the store has status pending, preparing or completed, then so has every
    ticket after any sequence of events, and none of them is ever shown with
    the "Unknown" badge. *)
Theorem X4_lifecycle_statuses (s : AppState) (evs : list Event) (t : OrderTicket) :
  (forall t', In t' (orders s) -> lifecycle_status (status t')) ->
  In t (orders (run s evs)) ->
  lifecycle_status (status t) /\ label (getStatusBadge (status t)) <> "Unknown".
Proof.
  intros Hs Hin.
  assert (H : lifecycle_status (status t)) by exact (run_lifecycle evs s Hs t Hin).
  split; [exact H|].
  destruct H as [E|[E|E]]; rewrite E; discriminate.
Qed.

Lemma X4_lifecycle_statuses_witness :
  lifecycle_status "completed" /\ label (getStatusBadge "completed") <> "Unknown".
Proof.
  apply (X4_lifecycle_statuses mount
           [Message (Parsed panini) env_a; ClickToggle; ClickComplete]
           {| id := "a"; orderNumber := 101; recipe := panini;
              status := "completed"; timestamp := 1000 |}).
  - intros t' [].
  - left; reflexivity.
Defined.

Lemma step_unique s ev rest used :
  NoDup (map id (orders s)) ->
  incl (map id (orders s)) used ->
  fresh_uuids used (ev :: rest) = true ->
  NoDup (map id (orders (step s ev))) /\
  exists used', incl (map id (orders (step s ev))) used' /\ fresh_uuids used' rest = true.
Proof.
  intros Hnd Hincl Hfresh.
  assert (Hkeep : map id (orders (step s ev)) = map id (orders s) ->
            NoDup (map id (orders (step s ev))) /\
            exists used', incl (map id (orders (step s ev))) used' /\
                          fresh_uuids used' rest = true).
  { intros E. rewrite E. split; [exact Hnd|].
    destruct ev; simpl in Hfresh;
      try (exists used; split; [exact Hincl | exact Hfresh]).
    apply andb_true_iff in Hfresh. destruct Hfresh as [_ Hfresh].
    exists (randomUUID env :: used). split; [apply incl_tl, Hincl | exact Hfresh]. }
  destruct (step_cases s ev)
    as [[E _]|[[data [env [-> [_ [E _]]]]]|[o [st [_ [_ [_ E]]]]]]].
  - apply Hkeep. rewrite E. reflexivity.
  - clear Hkeep. rewrite E, map_app. simpl in *.
    apply andb_true_iff in Hfresh. destruct Hfresh as [Hnew Hfresh].
    apply negb_true_iff, existsb_eqb_false in Hnew. split.
    + apply NoDup_app.
      * exact Hnd.
      * constructor; [intros []|constructor].
      * intros x Hx [<-|[]]. apply Hnew, Hincl, Hx.
    + exists (randomUUID env :: used). split; [|exact Hfresh].
      intros x Hx. apply in_app_or in Hx.
      destruct Hx as [Hx|[<-|[]]]; [right; apply Hincl, Hx | left; reflexivity].
  - apply Hkeep. rewrite E, orders_handleUpdateStatus. apply update_status_ids.
Qed.

Lemma run_unique evs : forall s used,
  NoDup (map id (orders s)) ->
  incl (map id (orders s)) used ->
  fresh_uuids used evs = true ->
  NoDup (map id (orders (run s evs))).
Proof.
  induction evs as [|ev evs IH]; intros s used Hnd Hincl Hfresh; [exact Hnd|].
  destruct (step_unique s ev evs used Hnd Hincl Hfresh) as [Hnd' [used' [Hincl' Hfresh']]].
  exact (IH (step s ev) used' Hnd' Hincl' Hfresh').
Qed.

(** X5. Ids stay unique: when the ids of the store are pairwise different
    and every UUID handed out during the events is new, the ids of the store
    are pairwise different after the events. *)
Theorem X5_ids_stay_unique (s : AppState) (evs : list Event) :
  distinct (map id (orders s)) = true ->
  fresh_uuids (map id (orders s)) evs = true ->
  NoDup (map id (orders (run s evs))).
Proof.
  intros Hd Hfresh.
  apply (run_unique evs s (map id (orders s))).
  - apply distinct_NoDup, Hd.
  - apply incl_refl.
  - exact Hfresh.
Qed.

Lemma X5_ids_stay_unique_witness :
  NoDup (map id (orders
    (run one_pending [ClickComplete; Message (Parsed panini) env_b; ClickToggle]))).
Proof.
  apply (X5_ids_stay_unique one_pending); reflexivity.
Defined.

Lemma identity_update_status i st os :
  map identity_of (update_status i st os) = map identity_of os.
Proof.
  unfold update_status. rewrite map_map. apply map_ext. intros o.
  destruct (id o =? i)%string; reflexivity.
Qed.

(** X6. The store is append-only: after any sequence of events the tickets
    it held are still there, at the same positions, with the same id, order
    number, recipe and timestamp; whatever is new comes after them, at most
    one ticket per event. *)
Theorem X6_store_append_only (evs : list Event) (s : AppState) :
  exists more : list OrderTicket,
    map identity_of (orders (run s evs)) =
      (map identity_of (orders s) ++ map identity_of more)%list /\
    (List.length more <= List.length evs)%nat.
Proof.
  revert s. induction evs as [|ev evs IH]; intros s.
  - exists []. simpl. rewrite app_nil_r. split; [reflexivity | lia].
  - destruct (IH (step s ev)) as [more [E Hlen]]. simpl. rewrite E.
    destruct (step_cases s ev)
      as [[E1 _]|[[data [env [_ [_ [E1 _]]]]]|[o [st [_ [_ [_ E1]]]]]]].
    + exists more. rewrite E1. split; [reflexivity | lia].
    + exists (createNewTicket (effect_orders s) data env :: more).
      rewrite E1, map_app, <- app_assoc. simpl. split; [reflexivity | lia].
    + exists more. rewrite E1, orders_handleUpdateStatus, identity_update_status.
      split; [reflexivity | lia].
Qed.

(** ** The selection *)

Lemma find_id_some (os : list OrderTicket) i :
  In i (map id os) -> exists t, find (id_is (Some i)) os = Some t /\ id t = i.
Proof.
  intros H. destruct (find (id_is (Some i)) os) as [t|] eqn:E.
  - exists t. split; [reflexivity|]. apply find_id_is in E. destruct E as [_ E]. congruence.
  - exfalso. apply in_map_iff in H. destruct H as [o [Hid Ho]].
    pose proof (find_none _ _ E o Ho) as Hn. simpl in Hn.
    rewrite Hid, String.eqb_refl in Hn. discriminate.
Qed.

Lemma step_selection_in_store s ev :
  (forall i, selectedOrderId s = Some i -> In i (map id (orders s))) ->
  forall i, selectedOrderId (step s ev) = Some i -> In i (map id (orders (step s ev))).
Proof.
  intros Hs i.
  destruct (step_cases s ev)
    as [[E [Hsel|[Hsel|[j [Hj Hsel]]]]]|[[data [env [_ [_ [E Hsel]]]]]|[o [st [_ [_ [_ E]]]]]]].
  - rewrite E, Hsel. apply Hs.
  - rewrite Hsel. discriminate.
  - rewrite E, Hsel. intros [= <-]. apply ticket_items_in_store, Hj.
  - rewrite E, Hsel, map_app. intros [= <-]. apply in_or_app. right. left. reflexivity.
  - rewrite E, orders_handleUpdateStatus, selectedOrderId_handleUpdateStatus,
      update_status_ids. apply Hs.
Qed.

(** X7. The selection never dangles: if the selected id, when there is one,
    is the id of a ticket in the store, then the same holds after any
    sequence of events, so a selected id always resolves to a ticket for the
    detail pane. *)
Theorem X7_selection_resolves (evs : list Event) (s : AppState) (i : string) :
  (forall j, selectedOrderId s = Some j -> In j (map id (orders s))) ->
  selectedOrderId (run s evs) = Some i ->
  exists t, selectedOrder (run s evs) = Some t /\ id t = i.
Proof.
  intros Hs Hsel.
  assert (G : forall j, selectedOrderId (run s evs) = Some j ->
                        In j (map id (orders (run s evs)))).
  { clear i Hsel. revert s Hs. induction evs as [|ev evs IH]; intros s Hs; [exact Hs|].
    simpl. apply IH. apply step_selection_in_store. exact Hs. }
  unfold selectedOrder. rewrite Hsel. apply find_id_some. apply G. exact Hsel.
Qed.

Lemma X7_selection_resolves_witness :
  exists t,
    selectedOrder (run mount [Message (Parsed panini) env_a; ClickComplete;
                              Message (Parsed toast) env_b; ClickTicket "a"]) = Some t /\
    id t = "b".
Proof.
  apply (X7_selection_resolves _ mount "b").
  - intros j H. discriminate H.
  - reflexivity.
Defined.

(** ** The list header and the empty notice *)

Lemma filter_empty (f : OrderTicket -> bool) os :
  filter f os = [] <-> forall o, In o os -> f o = false.
Proof.
  induction os as [|o os IH]; simpl.
  - split; [intros _ o' [] | reflexivity].
  - destruct (f o) eqn:E.
    + split; [discriminate|]. intros H. specialize (H o (or_introl eq_refl)). congruence.
    + rewrite IH. split.
      * intros H o' [<-|Ho']; [exact E | apply H, Ho'].
      * intros H o' Ho'. apply H. right. exact Ho'.
Qed.

(** X8. In a store of three-valued statuses the header count is the number
    of tickets that are not completed, and the notice "No active orders
    currently." is rendered exactly when every ticket is completed (in
    particular for the empty store). *)
Theorem X8_header_count (s : AppState) :
  (forall t, In t (orders s) -> lifecycle_status (status t)) ->
  (active_ticket_count s + List.length (filter (status_is "completed") (orders s)) =
     List.length (orders s))%nat /\
  (no_active_notice s = true <-> forall t, In t (orders s) -> status t = "completed").
Proof.
  intros Hs. split.
  - unfold active_ticket_count, pendingOrders, activeOrders.
    apply filters_partition. exact Hs.
  - unfold no_active_notice, pendingOrders, activeOrders.
    rewrite andb_true_iff, !Nat.eqb_eq, !length_zero_iff_nil, !filter_empty.
    unfold status_is. split.
    + intros [Hp Ha] t Ht.
      destruct (Hs t Ht) as [E|[E|E]]; [| |exact E].
      * specialize (Hp t Ht). rewrite E in Hp. discriminate.
      * specialize (Ha t Ht). rewrite E in Ha. discriminate.
    + intros H. split; intros o Ho; rewrite (H o Ho); reflexivity.
Qed.

Lemma X8_header_count_witness :
  (active_ticket_count one_completed +
   List.length (filter (status_is "completed") (orders one_completed)) =
     List.length (orders one_completed))%nat /\
  (no_active_notice one_completed = true <->
   forall t, In t (orders one_completed) -> status t = "completed").
Proof.
  apply (X8_header_count one_completed).
  intros t [<-|[]]. right; right; reflexivity.
Defined.

(** ** After a stream error *)

Lemma press_closed button s :
  eventSource_open (press button s) = eventSource_open s /\
  map identity_of (orders (press button s)) = map identity_of (orders s) /\
  console (press button s) = console s.
Proof.
  destruct button as [|[i st] rest]; [repeat split; reflexivity|].
  unfold press. rewrite orders_handleUpdateStatus, identity_update_status.
  unfold handleUpdateStatus. destruct (st =? "completed")%string; repeat split; reflexivity.
Qed.

Lemma step_closed s ev :
  eventSource_open s = false ->
  eventSource_open (step s ev) = false /\
  map identity_of (orders (step s ev)) = map identity_of (orders s) /\
  console (step s ev) = console s.
Proof.
  intros Hc. destruct ev as [event_data env| |i| | |]; simpl.
  - rewrite Hc. repeat split; assumption || reflexivity.
  - rewrite Hc. repeat split; assumption || reflexivity.
  - destruct (existsb _ _); repeat split; assumption || reflexivity.
  - destruct (selectedOrder s) as [o|]; [|repeat split; assumption || reflexivity].
    destruct (press_closed (toggle_button o) s) as [H1 [H2 H3]].
    repeat split; congruence.
  - destruct (selectedOrder s) as [o|]; [|repeat split; assumption || reflexivity].
    destruct (press_closed (complete_button o) s) as [H1 [H2 H3]].
    repeat split; congruence.
  - destruct (timeouts s); repeat split; assumption || reflexivity.
Qed.

(** X9. A stream error ends the intake for good: after it the stream is
    closed and stays closed, and whatever events follow, the store holds the
    same tickets as before the error (no ticket is ever added) and the only
    console line added is the one of the error handler, if the stream was
    open. *)
Theorem X9_stream_error_is_final (evs : list Event) (s : AppState) :
  eventSource_open (run (step s StreamError) evs) = false /\
  map identity_of (orders (run (step s StreamError) evs)) = map identity_of (orders s) /\
  console (run (step s StreamError) evs) =
    if eventSource_open s
    then (console s ++ [{| level := LevelError; text := "SSE connection error:";
                           arg := ArgConnection |}])%list
    else console s.
Proof.
  assert (G : forall evs s', eventSource_open s' = false ->
            eventSource_open (run s' evs) = false /\
            map identity_of (orders (run s' evs)) = map identity_of (orders s') /\
            console (run s' evs) = console s').
  { clear. induction evs as [|ev evs IH]; intros s' Hc; [repeat split; assumption|].
    destruct (step_closed s' ev Hc) as [H1 [H2 H3]].
    destruct (IH (step s' ev) H1) as [H4 [H5 H6]].
    simpl. repeat split; congruence. }
  destruct (G evs (step s StreamError)) as [H1 [H2 H3]].
  { simpl. destruct (eventSource_open s) eqn:E; [reflexivity | exact E]. }
  rewrite H1, H2, H3. simpl. destruct (eventSource_open s); repeat split; reflexivity.
Qed.

(** ** Clicking a ticket in the list *)

Lemma listed_ticket s t :
  In t (orders s) -> status t = "pending" \/ status t = "preparing" ->
  In (id t) (ticket_items s).
Proof.
  intros Hin Hst. unfold ticket_items, activeOrders, pendingOrders.
  apply in_map, in_or_app.
  destruct Hst as [E|E]; [right|left]; apply filter_In;
    (split; [exact Hin | unfold status_is; rewrite E; reflexivity]).
Qed.

Lemma listed_ticket_inv s i :
  In i (ticket_items s) ->
  exists o, In o (orders s) /\ id o = i /\ (status o = "pending" \/ status o = "preparing").
Proof.
  unfold ticket_items, activeOrders, pendingOrders. intros H.
  apply in_map_iff in H. destruct H as [o [Hid Ho]]. exists o.
  apply in_app_or in Ho.
  destruct Ho as [Ho|Ho]; apply filter_In in Ho; destruct Ho as [Hin Hst];
    unfold status_is in Hst; apply String.eqb_eq in Hst; auto.
Qed.

(** X10. Clicking a pending or preparing ticket of the store selects it:
    with unique ids, the detail pane then shows exactly that ticket. *)
Theorem X10_click_selects_ticket (s : AppState) (t : OrderTicket) :
  distinct (map id (orders s)) = true ->
  In t (orders s) ->
  status t = "pending" \/ status t = "preparing" ->
  selectedOrderId (step s (ClickTicket (id t))) = Some (id t) /\
  selectedOrder (step s (ClickTicket (id t))) = Some t /\
  orders (step s (ClickTicket (id t))) = orders s.
Proof.
  intros Hd Hin Hst.
  assert (E : step s (ClickTicket (id t)) = setSelectedOrderId (Some (id t)) s).
  { simpl. destruct (existsb _ _) eqn:Ex; [reflexivity|].
    exfalso. apply existsb_eqb_false in Ex. apply Ex. apply listed_ticket; assumption. }
  rewrite E. split; [reflexivity|]. split; [|reflexivity].
  unfold selectedOrder. simpl.
  destruct (find_id_some (orders s) (id t) (in_map id _ _ Hin)) as [t' [Hf Hid]].
  rewrite Hf. f_equal.
  apply find_id_is in Hf. destruct Hf as [Hin' _].
  apply (NoDup_ids_inj (orders s)); auto. apply distinct_NoDup, Hd.
Qed.

Lemma X10_click_selects_ticket_witness :
  selectedOrder (step two_pending (ClickTicket "a")) =
    Some {| id := "a"; orderNumber := 101; recipe := panini;
            status := "pending"; timestamp := 1000 |}.
Proof.
  apply (X10_click_selects_ticket two_pending
           {| id := "a"; orderNumber := 101; recipe := panini;
              status := "pending"; timestamp := 1000 |}).
  - reflexivity.
  - left; reflexivity.
  - left; reflexivity.
Defined.

(** X11. A completed ticket cannot be selected: with unique ids no list item
    is rendered for it, so no click reaches it and a click event carrying its
    id leaves the whole state as it is. *)
Theorem X11_completed_not_selectable (s : AppState) (t : OrderTicket) :
  distinct (map id (orders s)) = true ->
  In t (orders s) ->
  status t = "completed" ->
  ~ In (id t) (ticket_items s) /\ step s (ClickTicket (id t)) = s.
Proof.
  intros Hd Hin Hst.
  assert (Hno : ~ In (id t) (ticket_items s)).
  { intros H. apply listed_ticket_inv in H. destruct H as [o [Ho [Hid Hso]]].
    assert (o = t).
    { apply (NoDup_ids_inj (orders s)); auto. apply distinct_NoDup, Hd. }
    subst o. rewrite Hst in Hso. destruct Hso as [H|H]; discriminate H. }
  split; [exact Hno|]. simpl.
  destruct (existsb _ _) eqn:Ex; [|reflexivity].
  exfalso. apply Hno. apply existsb_exists in Ex. destruct Ex as [j [Hj Hij]].
  apply String.eqb_eq in Hij. subst j. exact Hj.
Qed.

Lemma X11_completed_not_selectable_witness :
  step (step one_completed TimeoutFires) (ClickTicket "a") = step one_completed TimeoutFires.
Proof.
  apply (X11_completed_not_selectable (step one_completed TimeoutFires)
           {| id := "a"; orderNumber := 101; recipe := panini;
              status := "completed"; timestamp := 1000 |}).
  - reflexivity.
  - left; reflexivity.
  - reflexivity.
Defined.

(** ** The buttons, composed *)

Lemma handleUpdateStatus_not_completed i st s :
  st <> "completed" -> handleUpdateStatus i st s = setOrders (update_status i st) s.
Proof.
  intros H. unfold handleUpdateStatus. apply String.eqb_neq in H. rewrite H. reflexivity.
Qed.

Lemma update_status_overwrite i a b os :
  update_status i b (update_status i a os) = update_status i b os.
Proof.
  unfold update_status. rewrite map_map. apply map_ext. intros o.
  destruct (id o =? i)%string eqn:E.
  - rewrite with_status_id, E. reflexivity.
  - rewrite E. reflexivity.
Qed.

Lemma update_status_commute i j a b os :
  i <> j ->
  update_status i a (update_status j b os) = update_status j b (update_status i a os).
Proof.
  intros Hij. unfold update_status. rewrite !map_map. apply map_ext. intros o.
  destruct (id o =? j)%string eqn:Ej; destruct (id o =? i)%string eqn:Ei;
    simpl; rewrite ?Ei, ?Ej; try reflexivity.
  apply String.eqb_eq in Ei, Ej. congruence.
Qed.

Lemma update_status_own_status os o :
  NoDup (map id os) -> In o os -> update_status (id o) (status o) os = os.
Proof.
  intros Hnd Ho. unfold update_status.
  rewrite <- (map_id os) at 2. apply map_ext_in. intros o' Ho'.
  destruct (String.eqb_spec (id o') (id o)) as [E|_]; [|reflexivity].
  rewrite (NoDup_ids_inj os o' o Hnd Ho' Ho E). apply with_status_same.
Qed.

(** X12. "Mark as Complete" on the selected, not yet completed, order makes
    it the same ticket with status completed and schedules one deselection;
    the selection stays for now, the detail pane loses both buttons, and
    pressing where they were changes nothing any more. *)
Theorem X12_mark_complete (s : AppState) (o : OrderTicket) :
  selectedOrder s = Some o -> status o <> "completed" ->
  selectedOrder (step s ClickComplete) = Some (with_status o "completed") /\
  RecipeDetail_buttons (selectedOrder (step s ClickComplete)) = [] /\
  selectedOrderId (step s ClickComplete) = selectedOrderId s /\
  timeouts (step s ClickComplete) = (timeouts s ++ [500])%list /\
  step (step s ClickComplete) ClickComplete = step s ClickComplete /\
  step (step s ClickComplete) ClickToggle = step s ClickComplete.
Proof.
  intros Hsel Hst.
  assert (Hsel' : selectedOrder (step s ClickComplete) = Some (with_status o "completed")).
  { rewrite (click_complete_selected s o Hsel Hst), selectedOrder_handleUpdateStatus, Hsel.
    simpl. rewrite String.eqb_refl. reflexivity. }
  split; [exact Hsel'|]. split; [rewrite Hsel'; reflexivity|].
  split; [rewrite (click_complete_selected s o Hsel Hst);
          apply selectedOrderId_handleUpdateStatus|].
  split; [rewrite (click_complete_selected s o Hsel Hst); reflexivity|].
  split.
  - change (step (step s ClickComplete) ClickComplete)
      with (match selectedOrder (step s ClickComplete) with
            | Some o' => press (complete_button o') (step s ClickComplete)
            | None => step s ClickComplete
            end).
    rewrite Hsel'. reflexivity.
  - change (step (step s ClickComplete) ClickToggle)
      with (match selectedOrder (step s ClickComplete) with
            | Some o' => press (toggle_button o') (step s ClickComplete)
            | None => step s ClickComplete
            end).
    rewrite Hsel'. reflexivity.
Qed.

Lemma X12_mark_complete_witness :
  selectedOrder (step (step two_pending ClickToggle) ClickComplete) =
    Some {| id := "b"; orderNumber := 101; recipe := panini;
            status := "completed"; timestamp := 2000 |} /\
  RecipeDetail_buttons (selectedOrder (step (step two_pending ClickToggle) ClickComplete)) = [].
Proof.
  destruct (X12_mark_complete (step two_pending ClickToggle)
              {| id := "b"; orderNumber := 101; recipe := panini;
                 status := "preparing"; timestamp := 2000 |}) as [H1 [H2 _]].
  - reflexivity.
  - discriminate.
  - split; [exact H1 | exact H2].
Defined.

(** X13. With unique ids, pressing the toggle twice on a selected order that
    is pending or preparing gives back the whole component state: Start
    Cooking then Pause, or Pause then Start Cooking, leaves no trace. *)
Theorem X13_toggle_twice (s : AppState) (o : OrderTicket) :
  distinct (map id (orders s)) = true ->
  selectedOrder s = Some o ->
  status o = "pending" \/ status o = "preparing" ->
  step (step s ClickToggle) ClickToggle = s.
Proof.
  intros Hd Hsel Hst.
  pose (st1 := if (status o =? "pending")%string then "preparing" else "pending").
  assert (Hnc : status o <> "completed") by (destruct Hst as [E|E]; rewrite E; discriminate).
  assert (H1 : st1 <> "completed") by (unfold st1; destruct (status o =? "pending")%string;
                                       discriminate).
  assert (E1 : step s ClickToggle = setOrders (update_status (id o) st1) s).
  { rewrite (click_toggle_selected s o Hsel Hnc).
    apply handleUpdateStatus_not_completed. exact H1. }
  assert (Hsel1 : selectedOrder (step s ClickToggle) = Some (with_status o st1)).
  { rewrite (click_toggle_selected s o Hsel Hnc), selectedOrder_handleUpdateStatus, Hsel.
    simpl. rewrite String.eqb_refl. reflexivity. }
  assert (Hback : (if (status (with_status o st1) =? "pending")%string
                   then "preparing" else "pending") = status o).
  { unfold st1. destruct Hst as [E|E]; rewrite E; reflexivity. }
  rewrite (click_toggle_selected _ _ Hsel1 H1), Hback.
  rewrite handleUpdateStatus_not_completed by exact Hnc.
  rewrite E1. unfold setOrders. simpl.
  rewrite update_status_overwrite.
  destruct (find_id_is _ _ _ Hsel) as [Hin _].
  rewrite (update_status_own_status (orders s) o (distinct_NoDup _ Hd) Hin).
  destruct s; reflexivity.
Qed.

Lemma X13_toggle_twice_witness :
  step (step two_pending ClickToggle) ClickToggle = two_pending.
Proof.
  apply (X13_toggle_twice two_pending
           {| id := "b"; orderNumber := 101; recipe := panini;
              status := "pending"; timestamp := 2000 |}).
  - reflexivity.
  - reflexivity.
  - left; reflexivity.
Defined.

(** X14. Status updates compose by id: on the same id the later update wins,
    whatever the earlier one set, and updates for different ids commute. *)
Theorem X14_updates_compose (i j a b : string) (s : AppState) :
  orders (handleUpdateStatus i b (handleUpdateStatus i a s)) =
    orders (handleUpdateStatus i b s) /\
  (i <> j ->
   orders (handleUpdateStatus i a (handleUpdateStatus j b s)) =
   orders (handleUpdateStatus j b (handleUpdateStatus i a s))).
Proof.
  rewrite !orders_handleUpdateStatus. split.
  - apply update_status_overwrite.
  - intros Hij. apply update_status_commute. exact Hij.
Qed.

Lemma X14_updates_compose_witness :
  orders (handleUpdateStatus "a" "preparing" (handleUpdateStatus "b" "completed" two_pending)) =
  orders (handleUpdateStatus "b" "completed" (handleUpdateStatus "a" "preparing" two_pending)).
Proof.
  apply (X14_updates_compose "a" "b" "preparing" "completed" two_pending).
  discriminate.
Defined.

(** ** The steps in the detail pane *)





(** X16. The handler does not look at the steps.  A payload with a truthy
    meal whose steps member is missing or is not an array is accepted all the
    same: its ticket enters the store and is selected, and evaluating the
    steps list of the detail pane for that ticket throws a TypeError. *)
Theorem X16_steps_unchecked (data : json) (env : Env) (s : AppState) :
  accepted (Parsed data) = true ->
  steps_array data = None ->
  In (createNewTicket (effect_orders s) data env) (orders (onmessage (Parsed data) env s)) /\
  selectedOrderId (onmessage (Parsed data) env s) =
    Some (id (createNewTicket (effect_orders s) data env)) /\
  RecipeDetail_steps (createNewTicket (effect_orders s) data env) = inl TypeError.
Proof.
  intros Hacc Hsteps.
  destruct (onmessage_cases (Parsed data) env s) as [[H _]|[_ [d [m [Hd [_ E]]]]]];
    [congruence|].
  injection Hd as <-. rewrite E. simpl.
  split; [apply in_or_app; right; left; reflexivity|].
  split; [reflexivity|].
  unfold RecipeDetail_steps, steps_array in *. simpl.
  destruct data as [| | | | |ms]; try reflexivity.
  destruct (assoc_last "steps" ms) as [[| | | |l|]|]; try reflexivity.
  discriminate Hsteps.
Qed.

Lemma X16_steps_unchecked_witness :
  selectedOrderId (onmessage (Parsed toast) env_b one_pending) = Some "b" /\
  RecipeDetail_steps (createNewTicket (effect_orders one_pending) toast env_b) =
    inl TypeError.
Proof.
  destruct (X16_steps_unchecked toast env_b one_pending) as [_ [H2 H3]].
  - reflexivity.
  - reflexivity.
  - split; [exact H2 | exact H3].
Defined.

(** ** The ticket factory *)



(** ** What the first render fixes *)

(** X18. After mounting, every ticket the stream creates is numbered 101,
    whatever the events: the handler gives the factory the store of the first
    render, which is empty. *)
Theorem X18_numbers_after_mount (evs : list Event) (t : OrderTicket) :
  In t (orders (run mount evs)) -> orderNumber t = 101.
Proof. apply run_mount_numbers. Qed.

Lemma X18_numbers_after_mount_witness :
  orderNumber {| id := "b"; orderNumber := 101; recipe := panini;
                 status := "pending"; timestamp := 2000 |} = 101.
Proof.
  apply (X18_numbers_after_mount
           [Message (Parsed panini) env_a; Message (Parsed panini) env_b]).
  right; left; reflexivity.
Defined.

(** X19. After mounting, the memo of the completed orders stays empty
    whatever the events, so the block "Completed Orders" is never rendered,
    however many tickets of the store are completed. *)
Theorem X19_completed_section_hidden (evs : list Event) :
  completedOrders (run mount evs) = [] /\
  completed_section_shown (run mount evs) = false.
Proof.
  unfold completed_section_shown. rewrite run_mount_completedOrders.
  split; reflexivity.
Qed.
